(** * Startup seeding of the backend: [backend/src/utils/seed.ts]

    The routine validates that admin credentials are present, asks the
    credential service for an API key, reports database connectivity and,
    in a cloud deployment only, seeds two default AI configurations.

    The credential service, the database manager and the AI
    configuration store are external collaborators.  The development
    keeps them abstract (a record of handlers over an arbitrary world,
    each free to return or to throw) and follows the control flow of the
    three functions of the source file in a small state-and-exception
    monad that records every call and every log line.  The logger only
    appends to its sink and does not throw; [isCloudEnvironment] is a
    pure function of the process configuration. *)

From Stdlib Require Import ZArith List String Bool Lia.
From stdpp Require Import base strings gmap pretty.
Import ListNotations.

Local Open Scope string_scope.
Local Open Scope list_scope.

(** * JavaScript values used by the routine *)

(** A value caught by [catch (error)], described by what the expression
    [error instanceof Error ? error.message : String(error)] does with
    it: an [Error] instance yields its [message]; another value yields
    the text of [String(error)]; and for some values the expression
    itself throws ([String] of an object without usable [toString] and
    [valueOf], such as [Object.create(null)], throws a [TypeError]):
    such a value carries what is thrown then. *)
Inductive thrown : Type :=
| ErrorInstance (message : string)
| OtherValue (text : string)
| Unprintable (failure : thrown).

(** A JavaScript number as the routine observes it: the outcome of the
    test [> 0] and the text a template literal prints for it ([NaN] is
    not positive and prints as [NaN]; [1e21] prints as [1e+21]). *)
Record jsnumber : Type := mkNumber {
  number_positive : bool;
  number_text : string
}.

(** The number for a safe integer (below [2^53] in absolute value),
    which the number type holds exactly and prints in full. *)
Definition number_of_Z (z : Z) : jsnumber :=
  mkNumber (0 <? z)%Z (pretty z).

(** A string-typed value at run time: a string, or [undefined]. *)
Definition jsstring : Type := option string.

(** Truthiness of such a value: [undefined] and the empty string are
    falsy, every other string is truthy. *)
Definition truthy (v : jsstring) : bool :=
  match v with
  | None => false
  | Some s => negb (String.eqb s "")
  end.

(** [v || fallback] where the fallback is a string literal. *)
Definition or_default (v : jsstring) (fallback : string) : string :=
  match v with
  | Some s => if truthy v then s else fallback
  | None => fallback
  end.

(** Interpolation [${v}] inside a template literal. *)
Definition interpolate (v : jsstring) : string :=
  match v with
  | Some s => s
  | None => "undefined"
  end.

(** A credential is present when it is a non-empty string. *)
Definition present (v : jsstring) : Prop :=
  exists s, v = Some s /\ s <> "".

(** * Data model *)

(** An AI model configuration, with the four fields [create] receives. *)
Record AIConfig : Type := mkAIConfig {
  modality : string;
  provider : string;
  model : string;
  systemPrompt : option string
}.

#[global] Instance thrown_eq_dec : EqDecision thrown.
Proof. solve_decision. Defined.

#[global] Instance AIConfig_eq_dec : EqDecision AIConfig.
Proof. solve_decision. Defined.

(** * Observable events *)

Inductive level : Type := Info | Warn | Error.

(** The external operations the routine invokes. *)
Inductive operation : Type :=
| OpAuthGetInstance
| OpDatabaseGetInstance
| OpInitializeApiKey
| OpGetUserTableCount
| OpNewAIConfigService
| OpFindAll
| OpCreate (config : AIConfig).

(** What an observer of one run sees, in chronological order: log
    lines, and for every external operation the moment it is invoked
    and the moment it returns (its promise resolves) or throws (its
    promise rejects). *)
Inductive event : Type :=
| Logged (lvl : level) (message : string) (meta : list (string * string))
| Begin (op : operation)
| Done (op : operation)
| Failed (op : operation) (error : thrown).

#[global] Instance level_eq_dec : EqDecision level.
Proof. solve_decision. Defined.

#[global] Instance operation_eq_dec : EqDecision operation.
Proof. solve_decision. Defined.

#[global] Instance event_eq_dec : EqDecision event.
Proof. solve_decision. Defined.

(** * External collaborators *)

(** Result of running a piece of code: it returns a value or throws. *)
Inductive outcome (A : Type) : Type :=
| Returned (value : A)
| Thrown (error : thrown).

Arguments Returned {A} value.
Arguments Thrown {A} error.

Definition outcome_map {A B : Type} (f : A -> B) (o : outcome A)
    : outcome B :=
  match o with
  | Returned a => Returned (f a)
  | Thrown error => Thrown error
  end.

(** [error instanceof Error ? error.message : String(error)]: the text,
    or what the conversion throws. *)
Definition error_text (error : thrown) : outcome string :=
  match error with
  | ErrorInstance message => Returned message
  | OtherValue text => Returned text
  | Unprintable failure => Thrown failure
  end.

(** The services imported by the source file.  Each handler receives
    the current state of the outside world and yields its outcome and
    the world it leaves behind; no assumption is made on either.
    [process_env] is [process.env]; [isCloudEnvironment] is a pure
    function of that configuration. *)
Record Services : Type := {
  World : Type;
  AuthService : Type;
  DatabaseManager : Type;
  AIConfigService : Type;
  process_env : gmap string string;
  isCloudEnvironment : gmap string string -> bool;
  AuthService_getInstance : World -> outcome AuthService * World;
  DatabaseManager_getInstance : World -> outcome DatabaseManager * World;
  initializeApiKey : AuthService -> World -> outcome string * World;
  getUserTableCount : DatabaseManager -> World -> outcome jsnumber * World;
  AIConfigService_new : World -> outcome AIConfigService * World;
  findAll : AIConfigService -> World -> outcome (list AIConfig) * World;
  create : AIConfigService -> string -> string -> string -> option string ->
           World -> outcome unit * World
}.

(** * The monad of the routine *)

Record state (ext : Services) : Type := mkState {
  world : World ext;
  trace : list event
}.

Arguments mkState {ext} world trace.
Arguments world {ext} s.
Arguments trace {ext} s.

Definition Task (ext : Services) (A : Type) : Type :=
  state ext -> outcome A * state ext.

Definition emit {ext} (e : event) (s : state ext) : state ext :=
  mkState (world s) (trace s ++ [e]).

#[global] Instance task_ret {ext} : MRet (Task ext) :=
  fun A (a : A) s => (Returned a, s).

#[global] Instance task_bind {ext} : MBind (Task ext) :=
  fun A B (k : A -> Task ext B) (c : Task ext A) s =>
    match c s with
    | (Returned a, s') => k a s'
    | (Thrown error, s') => (Thrown error, s')
    end.

(** [throw error] *)
Definition throw {ext A} (error : thrown) : Task ext A :=
  fun s => (Thrown error, s).

(** [try { body } catch (error) { handler }] *)
Definition try_catch {ext A} (body : Task ext A)
    (handler : thrown -> Task ext A) : Task ext A :=
  fun s =>
    match body s with
    | (Returned a, s') => (Returned a, s')
    | (Thrown error, s') => handler error s'
    end.

(** Invoking an external operation and waiting for it to settle. *)
Definition call {ext A} (op : operation)
    (handler : World ext -> outcome A * World ext) : Task ext A :=
  fun s =>
    let s1 := emit (Begin op) s in
    match handler (world s1) with
    | (Returned a, w) => (Returned a, emit (Done op) (mkState w (trace s1)))
    | (Thrown error, w) =>
        (Thrown error, emit (Failed op error) (mkState w (trace s1)))
    end.

(** The logger only appends a line to the sink. *)
Definition logger {ext} (lvl : level) (message : string)
    (meta : list (string * string)) : Task ext unit :=
  fun s => (Returned tt, emit (Logged lvl message meta) s).

Definition logger_info {ext} := @logger ext Info.
Definition logger_warn {ext} := @logger ext Warn.
Definition logger_error {ext} := @logger ext Error.

(** * The three functions of [seed.ts] *)

Definition msg_starting : string := String (Ascii.ascii_of_nat 10)
  "🚀 Insforge Backend Starting...".
Definition msg_admin_configured : string := "✅ Admin configured: ".
Definition msg_admin_missing : string :=
  "⚠️ Admin credentials not configured - check ADMIN_EMAIL and "
  +:+ "ADMIN_PASSWORD".
Definition msg_database_connected : string :=
  "✅ Database connected to PostgreSQL".
Definition msg_found_tables (tableCount : jsnumber) : string :=
  "✅ Found " +:+ number_text tableCount +:+ " user tables".
Definition msg_models_configured : string :=
  "✅ Default AI models configured (cloud environment)".
Definition msg_api_key : string := "API key generated: ".
Definition msg_setup_complete : string := "Setup complete:
      - Save this API key for your apps!
      - Dashboard: http://localhost:7131
      - API: http://localhost:7130/api
    ".
Definition msg_setup_error : string := "Error during setup".

Definition default_text_config : AIConfig :=
  mkAIConfig "text" "openrouter" "anthropic/claude-3.5-haiku"
             (Some "You are a helpful assistant.").

Definition default_image_config : AIConfig :=
  mkAIConfig "image" "openrouter" "google/gemini-2.5-flash-image-preview"
             None.

Section Seed.

Context {ext : Services}.

Definition ensureFirstAdmin (adminEmail adminPassword : jsstring)
    : Task ext unit :=
  if truthy adminEmail && truthy adminPassword then
    logger_info (msg_admin_configured +:+ interpolate adminEmail) []
  else
    logger_warn msg_admin_missing [].

(** [aiConfigService.create(modality, provider, model, systemPrompt)] *)
Definition aiConfigService_create (aiConfigService : AIConfigService ext)
    (modality provider model : string) (systemPrompt : option string)
    : Task ext unit :=
  call (OpCreate (mkAIConfig modality provider model systemPrompt))
       (create ext aiConfigService modality provider model systemPrompt).

Definition seedDefaultAIConfigs : Task ext unit :=
  if negb (isCloudEnvironment ext (process_env ext)) then
    mret tt
  else
    aiConfigService ← call OpNewAIConfigService (AIConfigService_new ext);
    existingConfigs ← call OpFindAll (findAll ext aiConfigService);
    if (0 <? length existingConfigs)%nat then
      mret tt
    else
      aiConfigService_create aiConfigService
        "text" "openrouter" "anthropic/claude-3.5-haiku"
        (Some "You are a helpful assistant.");;
      aiConfigService_create aiConfigService
        "image" "openrouter" "google/gemini-2.5-flash-image-preview"
        None;;
      logger_info msg_models_configured [].

(** The body of the [try] block of [seedBackend]. *)
Definition seedBackend_try (authService : AuthService ext)
    (dbManager : DatabaseManager ext) (adminEmail adminPassword : string)
    : Task ext unit :=
  logger_info msg_starting [];;
  ensureFirstAdmin (Some adminEmail) (Some adminPassword);;
  apiKey ← call OpInitializeApiKey (initializeApiKey ext authService);
  tableCount ← call OpGetUserTableCount (getUserTableCount ext dbManager);
  logger_info msg_database_connected
    [ ("host", or_default (process_env ext !! "POSTGRES_HOST") "localhost");
      ("port", or_default (process_env ext !! "POSTGRES_PORT") "5432");
      ("database", or_default (process_env ext !! "POSTGRES_DB") "insforge") ];;
  (if number_positive tableCount
   then logger_info (msg_found_tables tableCount) []
   else mret tt);;
  seedDefaultAIConfigs;;
  logger_info (msg_api_key +:+ apiKey) [];;
  logger_info msg_setup_complete [].

(** The [catch] block of [seedBackend].  The argument of
    [logger.error] is evaluated first: when the conversion of the
    caught value throws, nothing is logged and the handler throws. *)
Definition seedBackend_catch (error : thrown) : Task ext unit :=
  match error_text error with
  | Returned text => logger_error msg_setup_error [("error", text)]
  | Thrown failure => throw failure
  end.

Definition seedBackend : Task ext unit :=
  authService ← call OpAuthGetInstance (AuthService_getInstance ext);
  dbManager ← call OpDatabaseGetInstance (DatabaseManager_getInstance ext);
  let adminEmail :=
    or_default (process_env ext !! "ADMIN_EMAIL") "admin@example.com" in
  let adminPassword :=
    or_default (process_env ext !! "ADMIN_PASSWORD") "change-this-password" in
  try_catch (seedBackend_try authService dbManager adminEmail adminPassword)
            seedBackend_catch.

End Seed.

Arguments seedDefaultAIConfigs : clear implicits.
Arguments seedBackend : clear implicits.

(** * An in-memory double of the collaborators *)

(** Modelled from the spec: the AI configuration store and the other
    services live outside this file; section 6 of the specification
    gives their contracts ([findAll] returns all stored configs, [create]
    persists one new record, [initializeApiKey] returns a key,
    [getUserTableCount] returns a count).  The double keeps the stored
    configs as the world; each entry of the script fixes how one
    collaborator answers, so that failures can be injected. *)
Record script : Type := mkScript {
  script_env : gmap string string;
  script_cloud : bool;
  script_auth : option thrown;
  script_database : option thrown;
  script_api_key : outcome string;
  script_table_count : outcome Z;
  script_create_rejects : AIConfig -> option thrown
}.

Definition answer {A W : Type} (failure : option thrown) (a : A) (w : W)
    : outcome A * W :=
  match failure with
  | Some error => (Thrown error, w)
  | None => (Returned a, w)
  end.

Definition memory_services (sc : script) : Services := {|
  World := list AIConfig;
  AuthService := unit;
  DatabaseManager := unit;
  AIConfigService := unit;
  process_env := script_env sc;
  isCloudEnvironment := fun _ => script_cloud sc;
  AuthService_getInstance := answer (script_auth sc) tt;
  DatabaseManager_getInstance := answer (script_database sc) tt;
  initializeApiKey := fun _ w => (script_api_key sc, w);
  getUserTableCount := fun _ w =>
    (outcome_map number_of_Z (script_table_count sc), w);
  AIConfigService_new := fun w => (Returned tt, w);
  findAll := fun _ w => (Returned w, w);
  create := fun _ modality provider model systemPrompt w =>
    let config := mkAIConfig modality provider model systemPrompt in
    match script_create_rejects sc config with
    | Some error => (Thrown error, w)
    | None => (Returned tt, w ++ [config])
    end
|}.

(** A run in which every collaborator answers. *)
Definition nominal (env : gmap string string) (cloud : bool) : script :=
  mkScript env cloud None None (Returned "ik_test") (Returned 3%Z)
           (fun _ => None).

(** The store refuses image configs. *)
Definition image_rejected (env : gmap string string) : script :=
  mkScript env true None None (Returned "ik_test") (Returned 0%Z)
    (fun config =>
       if String.eqb (modality config) "image"
       then Some (ErrorInstance "insert failed") else None).

Definition fresh (sc : script) (configs : list AIConfig)
    : state (memory_services sc) :=
  mkState (configs : World (memory_services sc)) [].

(** * Reading a trace *)

(** The events a run added to the trace. *)
Definition emitted {ext} (s s' : state ext) (evs : list event) : Prop :=
  trace s' = trace s ++ evs.

(** The configs for which [create] was invoked, in order. *)
Fixpoint creates_of (evs : list event) : list AIConfig :=
  match evs with
  | Begin (OpCreate config) :: rest => config :: creates_of rest
  | _ :: rest => creates_of rest
  | [] => []
  end.

(** The calls made to the AI configuration store, in order. *)
Definition is_store_call (e : event) : bool :=
  match e with
  | Begin OpNewAIConfigService | Begin OpFindAll | Begin (OpCreate _) => true
  | _ => false
  end.

Definition is_log (e : event) : bool :=
  match e with Logged _ _ _ => true | _ => false end.

Definition is_log_at (lvl : level) (e : event) : bool :=
  match e with
  | Logged lvl' _ _ => bool_decide (lvl' = lvl)
  | _ => false
  end.

Definition is_failure (e : event) : bool :=
  match e with Failed _ _ => true | _ => false end.

Fixpoint starts_with (prefix s : string) : bool :=
  match prefix with
  | EmptyString => true
  | String a prefix' =>
      match s with
      | EmptyString => false
      | String b s' => Ascii.eqb a b && starts_with prefix' s'
      end
  end.

Fixpoint occurs_in (needle s : string) : bool :=
  starts_with needle s ||
  match s with
  | EmptyString => false
  | String _ s' => occurs_in needle s'
  end.

(** A log line mentions a text when the text occurs in its message or
    in one of the values of its metadata. *)
Definition mentions (needle : string) (e : event) : bool :=
  match e with
  | Logged _ message meta =>
      occurs_in needle message ||
      existsb (fun kv => occurs_in needle (snd kv)) meta
  | _ => false
  end.

(** Some line of the trace mentions the text. *)
Definition logs_value (text : string) (evs : list event) : bool :=
  existsb (mentions text) evs.

(** ** The steps of the startup sequence *)

Inductive step : Type :=
| Acquisition          (* the two getInstance calls and the banner *)
| CredentialCheck
| ApiKeyInitialization
| TableCountQuery
| ConnectivitySummary
| TablesFound
| Seeding
| ApiKeyLog
| SetupCompleteLog
| SetupErrorLog.

#[global] Instance step_eq_dec : EqDecision step.
Proof. solve_decision. Defined.

Definition rank (st : step) : nat :=
  match st with
  | Acquisition => 0
  | CredentialCheck => 1
  | ApiKeyInitialization => 2
  | TableCountQuery => 3
  | ConnectivitySummary => 4
  | TablesFound => 5
  | Seeding => 6
  | ApiKeyLog => 7
  | SetupCompleteLog => 8
  | SetupErrorLog => 9
  end.

Definition step_of_operation (op : operation) : step :=
  match op with
  | OpAuthGetInstance | OpDatabaseGetInstance => Acquisition
  | OpInitializeApiKey => ApiKeyInitialization
  | OpGetUserTableCount => TableCountQuery
  | OpNewAIConfigService | OpFindAll | OpCreate _ => Seeding
  end.

(** The step an event belongs to; log lines are told apart by level and
    by the fixed text their message starts with. *)
Definition step_of (e : event) : option step :=
  match e with
  | Begin op | Done op | Failed op _ => Some (step_of_operation op)
  | Logged Error message _ =>
      if String.eqb message msg_setup_error then Some SetupErrorLog else None
  | Logged Warn message _ =>
      if String.eqb message msg_admin_missing then Some CredentialCheck
      else None
  | Logged Info message _ =>
      if String.eqb message msg_starting then Some Acquisition
      else if starts_with msg_admin_configured message
      then Some CredentialCheck
      else if String.eqb message msg_database_connected
      then Some ConnectivitySummary
      else if starts_with "✅ Found " message then Some TablesFound
      else if String.eqb message msg_models_configured then Some Seeding
      else if starts_with msg_api_key message then Some ApiKeyLog
      else if String.eqb message msg_setup_complete
      then Some SetupCompleteLog
      else None
  end.

(** Every event is classified and no event belongs to an earlier step
    than the one before it. *)
Fixpoint in_order (from : nat) (evs : list event) : bool :=
  match evs with
  | [] => true
  | e :: rest =>
      match step_of e with
      | Some st => (from <=? rank st)%nat && in_order (rank st) rest
      | None => false
      end
  end.

(** Every invocation is followed at once by its own settlement, and
    nothing settles that was not just invoked. *)
Fixpoint settles (evs : list event) : bool :=
  match evs with
  | [] => true
  | Begin op :: Done op' :: rest => bool_decide (op = op') && settles rest
  | Begin op :: Failed op' _ :: rest => bool_decide (op = op') && settles rest
  | Logged _ _ _ :: rest => settles rest
  | _ => false
  end.

(** Every event of the segment belongs to the given step. *)
Definition all_in (st : step) (evs : list event) : bool :=
  forallb (fun e => bool_decide (step_of e = Some st)) evs.

(** The rank reached at the end of a segment entered at rank [from]. *)
Definition ending (from : nat) (evs : list event) : nat :=
  fold_left
    (fun r e => match step_of e with Some st => rank st | None => r end)
    evs from.

(** The event is an API-key line. *)
Definition logs_api_key (e : event) : bool :=
  bool_decide (step_of e = Some ApiKeyLog).

(** ** Contracts of the collaborators, after section 6 of the
    specification *)

(** Modelled from the spec: the AI configuration store is not part of
    the source file.  [stored] reads the persisted configs off a world.
    Constructing the service changes nothing; [findAll] returns all
    stored configs and changes nothing; [create] persists exactly the
    new record when it returns and nothing when it throws. *)
Record StoreContract (ext : Services) (stored : World ext -> list AIConfig)
    : Prop := {
  new_contract : forall w, exists h w',
      AIConfigService_new ext w = (Returned h, w') /\ stored w' = stored w;
  findAll_contract : forall h w, exists w',
      findAll ext h w = (Returned (stored w), w') /\ stored w' = stored w;
  create_contract : forall h modality provider model systemPrompt w,
      match create ext h modality provider model systemPrompt w with
      | (Returned _, w') =>
          stored w' =
          stored w ++ [mkAIConfig modality provider model systemPrompt]
      | (Thrown _, w') => stored w' = stored w
      end
}.

(** The store accepts every record. *)
Definition CreateReturns (ext : Services) : Prop :=
  forall h modality provider model systemPrompt w, exists w',
    create ext h modality provider model systemPrompt w = (Returned tt, w').

(** Modelled from the spec: the credential service and the database
    manager are not part of the source file.  Here they answer and leave
    the AI configuration store alone. *)
Record StartupContract (ext : Services) (stored : World ext -> list AIConfig)
    : Prop := {
  auth_contract : forall w, exists h w',
      AuthService_getInstance ext w = (Returned h, w') /\ stored w' = stored w;
  database_contract : forall w, exists h w',
      DatabaseManager_getInstance ext w = (Returned h, w') /\
      stored w' = stored w;
  api_key_contract : forall h w, exists key w',
      initializeApiKey ext h w = (Returned key, w') /\ stored w' = stored w;
  table_count_contract : forall h w, exists n w',
      getUserTableCount ext h w = (Returned n, w') /\ stored w' = stored w
}.

(** ** Further readings of a trace *)

(** The operations invoked during a run, in order. *)
Fixpoint begins (evs : list event) : list operation :=
  match evs with
  | Begin op :: rest => op :: begins rest
  | _ :: rest => begins rest
  | [] => []
  end.

(** The event belongs to the step. *)
Definition is_step (st : step) (e : event) : bool :=
  bool_decide (step_of e = Some st).

(** Some event of the run belongs to the step. *)
Definition has_step (st : step) (evs : list event) : bool :=
  existsb (is_step st) evs.

(** The event is the return of the operation. *)
Definition is_done (op : operation) (e : event) : bool :=
  bool_decide (e = Done op).

(** The same collaborators under another [process.env]. *)
Definition with_env (ext : Services) (env : gmap string string)
    : Services := {|
  World := World ext;
  AuthService := AuthService ext;
  DatabaseManager := DatabaseManager ext;
  AIConfigService := AIConfigService ext;
  process_env := env;
  isCloudEnvironment := isCloudEnvironment ext;
  AuthService_getInstance := AuthService_getInstance ext;
  DatabaseManager_getInstance := DatabaseManager_getInstance ext;
  initializeApiKey := initializeApiKey ext;
  getUserTableCount := getUserTableCount ext;
  AIConfigService_new := AIConfigService_new ext;
  findAll := findAll ext;
  create := create ext
|}.

(** A state seen from the collaborators under another environment. *)
Definition under_env {ext} (env : gmap string string) (s : state ext)
    : state (with_env ext env) :=
  mkState (world s : World (with_env ext env)) (trace s).

(** * Proof support *)

Lemma truthy_present (v : jsstring) :
  truthy v = true <-> exists s, v = Some s /\ s <> "".
Proof.
  destruct v as [s|]; simpl.
  - rewrite negb_true_iff. split.
    + intros H. exists s. split; [reflexivity|].
      intros ->. discriminate.
    + intros (s' & [= <-] & Hne).
      apply String.eqb_neq. exact Hne.
  - split; [discriminate|]. intros (s & H & _). discriminate.
Qed.

Lemma or_default_truthy (v : jsstring) (fallback : string) :
  fallback <> "" -> truthy (Some (or_default v fallback)) = true.
Proof.
  intros Hne. destruct v as [s|]; simpl.
  - destruct (String.eqb s "") eqn:E; simpl.
    + apply negb_true_iff, String.eqb_neq, Hne.
    + rewrite E. reflexivity.
  - apply negb_true_iff, String.eqb_neq, Hne.
Qed.

(** Unfolding of the monadic plumbing, leaving the three functions of
    the source and the helpers on values folded. *)
Ltac unfold_task :=
  cbv beta iota zeta delta
    [aiConfigService_create logger_info logger_warn logger_error logger
     try_catch call emit throw mbind task_bind mret task_ret
     seedBackend_catch];
  cbn [world trace negb].

(** Case analysis on the next external answer. *)
Ltac next_answer :=
  match goal with
  | |- context [match ?h ?w with pair _ _ => _ end] =>
      let a := fresh "a" in
      let e := fresh "e" in
      let w' := fresh "w" in
      let E := fresh "E" in
      destruct (h w) as [[a|e] w'] eqn:E; cbn [world trace]
  end.

(** Reduction after an answer has been substituted. *)
Ltac reduce_task :=
  cbn [world trace length Nat.ltb Nat.leb negb]; cbv beta.

Ltac flatten_trace := repeat rewrite <- app_assoc; cbn [app].

(** Case analysis on a test the run depends on. *)
Ltac next_test :=
  match goal with
  | |- context [if ?c then _ else _] =>
      let E := fresh "E" in destruct c eqn:E
  end.

(** Case analysis on the conversion of a caught value. *)
Ltac next_text :=
  match goal with
  | |- context [match error_text ?e with Returned _ => _ | Thrown _ => _ end] =>
      let text := fresh "text" in
      let failure := fresh "failure" in
      let E := fresh "E" in
      destruct (error_text e) as [text|failure] eqn:E
  end.

(** All the paths of a run, one goal per path. *)
Ltac all_paths :=
  repeat (reduce_task; first [next_test | next_answer | next_text]).

(** The events of a finished run, read off its final state. *)
Ltac read_trace :=
  eexists _, _; split; [reflexivity|];
  split; [unfold emitted; cbn [world trace]; flatten_trace;
          first [reflexivity | symmetry; apply app_nil_r]|].

(** Splitting an explicit list before its last [k] events. *)
Ltac split_before_last k :=
  match goal with
  | |- exists pre, ?l = pre ++ _ /\ _ =>
      let n := eval cbv in (length l - k)%nat in
      exists (firstn n l)
  end.

(** Rewriting [a :: b :: ... :: (mid ++ post)] as [pre ++ mid ++ post]. *)
Ltac explicit_prefix l :=
  lazymatch l with
  | ?x :: ?xs =>
      let r := explicit_prefix xs in
      lazymatch r with
      | (?pre, ?rest) => constr:((x :: pre, rest))
      end
  | _ => constr:((@nil event, l))
  end.

Ltac as_sandwich :=
  repeat match goal with
  | |- context [Begin OpAuthGetInstance :: ?l] =>
      let r := explicit_prefix (Begin OpAuthGetInstance :: l) in
      lazymatch r with
      | (?pre, ?mid ++ ?post) =>
          change (Begin OpAuthGetInstance :: l) with (pre ++ mid ++ post)
      | (?pre, ?mid) => is_var mid; rewrite <- (app_nil_r mid)
      end
  end.

(** A path on which the seeder was not reached: the trace is explicit. *)
Ltac check_explicit :=
  eexists _, _, _; split; [reflexivity|];
  split; [unfold emitted; cbn [world trace]; flatten_trace; reflexivity|];
  split; [vm_compute; reflexivity|];
  split; [vm_compute; reflexivity|];
  left; vm_compute; reflexivity.

(** * The admin credential check *)

(** C7: for every pair (email, password), undefined included, the
    credential check returns normally and adds exactly one log line and
    nothing else: when both are non-empty strings the line is the
    informational "Admin configured" message carrying the email (so no
    warning is logged); when either is empty or undefined the line is
    the warning (so no "configured" message is logged). *)
Theorem ensureFirstAdmin_presence (ext : Services)
    (adminEmail adminPassword : jsstring) (s : state ext) :
  exists e,
    ensureFirstAdmin adminEmail adminPassword s = (Returned tt, emit e s) /\
    (present adminEmail /\ present adminPassword ->
     exists email, adminEmail = Some email /\
       e = Logged Info ("✅ Admin configured: " +:+ email) [] /\
       is_log_at Warn e = false) /\
    (~ (present adminEmail /\ present adminPassword) ->
     e = Logged Warn msg_admin_missing [] /\
     is_log_at Info e = false).
Proof.
  unfold ensureFirstAdmin.
  destruct (truthy adminEmail) eqn:Hemail;
    [destruct (truthy adminPassword) eqn:Hpassword|]; simpl.
  - eexists. split; [reflexivity|]. split.
    + intros [(email & -> & _) _]. exists email. auto.
    + intros Hno. exfalso. apply Hno.
      split; apply truthy_present; assumption.
  - eexists. split; [reflexivity|]. split.
    + intros [_ Hp]. apply truthy_present in Hp. congruence.
    + intros _. repeat split; reflexivity.
  - eexists. split; [reflexivity|]. split.
    + intros [He _]. apply truthy_present in He. congruence.
    + intros _. repeat split; reflexivity.
Qed.

Lemma ensureFirstAdmin_presence_witness :
  let s := fresh (nominal ∅ false) [] in
  (exists e,
     ensureFirstAdmin (Some "root@insforge.dev") (Some "s3cret") s
       = (Returned tt, emit e s) /\
     e = Logged Info "✅ Admin configured: root@insforge.dev" []) /\
  (exists e,
     ensureFirstAdmin (Some "root@insforge.dev") None s
       = (Returned tt, emit e s) /\
     e = Logged Warn msg_admin_missing []).
Proof.
  intros s. split.
  - destruct (ensureFirstAdmin_presence (memory_services (nominal ∅ false))
                (Some "root@insforge.dev") (Some "s3cret") s)
      as (e & Hrun & Hyes & _).
    exists e. split; [exact Hrun|].
    destruct Hyes as (email & [= <-] & -> & _).
    + split; eexists; (split; [reflexivity|discriminate]).
    + reflexivity.
  - destruct (ensureFirstAdmin_presence (memory_services (nominal ∅ false))
                (Some "root@insforge.dev") None s)
      as (e & Hrun & _ & Hno).
    exists e. split; [exact Hrun|].
    apply Hno. intros [_ (p & Hp & _)]. discriminate.
Defined.

(** * The default AI config seeder *)

(** C4: outside a cloud environment the seeder returns at once and
    leaves the state as it found it: the world is untouched and the
    trace gains no event, so there is neither a call to the AI
    configuration store ([new], [findAll], [create]) nor a log line. *)
Theorem seedDefaultAIConfigs_not_cloud (ext : Services) (s : state ext) :
  isCloudEnvironment ext (process_env ext) = false ->
  exists s' evs,
    seedDefaultAIConfigs ext s = (Returned tt, s') /\
    emitted s s' evs /\
    s' = s /\
    evs = [] /\
    List.filter is_store_call evs = [] /\
    List.filter is_log evs = [].
Proof.
  intros Hcloud. unfold seedDefaultAIConfigs. rewrite Hcloud. simpl.
  exists s, []. unfold emitted. rewrite app_nil_r. repeat split.
Qed.

Lemma seedDefaultAIConfigs_not_cloud_witness :
  let sc := nominal ∅ false in
  seedDefaultAIConfigs (memory_services sc) (fresh sc [default_text_config])
    = (Returned tt, fresh sc [default_text_config]).
Proof.
  intros sc.
  destruct (seedDefaultAIConfigs_not_cloud (memory_services sc)
              (fresh sc [default_text_config]))
    as (s' & evs & Hrun & _ & -> & _); [reflexivity|].
  exact Hrun.
Defined.

(** C5: in a cloud environment, when [findAll] returns a non-empty
    collection, the seeder returns after the query: the only events are
    the construction of the service and the query, so no [create] is
    issued and nothing is logged, the confirmation included. *)
Theorem seedDefaultAIConfigs_existing (ext : Services) (s : state ext)
    (h : AIConfigService ext) (w1 w2 : World ext)
    (existingConfigs : list AIConfig) :
  isCloudEnvironment ext (process_env ext) = true ->
  AIConfigService_new ext (world s) = (Returned h, w1) ->
  findAll ext h w1 = (Returned existingConfigs, w2) ->
  existingConfigs <> [] ->
  exists s' evs,
    seedDefaultAIConfigs ext s = (Returned tt, s') /\
    emitted s s' evs /\
    world s' = w2 /\
    evs = [Begin OpNewAIConfigService; Done OpNewAIConfigService;
           Begin OpFindAll; Done OpFindAll] /\
    creates_of evs = [] /\
    ~ In (Logged Info msg_models_configured []) evs.
Proof.
  intros Hcloud Hnew Hfind Hne.
  unfold seedDefaultAIConfigs. rewrite Hcloud. unfold_task.
  rewrite Hnew. cbn [world trace]. rewrite Hfind. cbn [world trace].
  destruct existingConfigs as [|c rest]; [congruence|]. simpl.
  eexists _, _. split; [reflexivity|].
  unfold emitted. simpl. flatten_trace.
  repeat split.
  intros Hin. simpl in Hin. intuition discriminate.
Qed.

Lemma seedDefaultAIConfigs_existing_witness :
  let sc := nominal ∅ true in
  exists s' evs,
    seedDefaultAIConfigs (memory_services sc) (fresh sc [default_text_config])
      = (Returned tt, s') /\
    emitted (fresh sc [default_text_config]) s' evs /\
    creates_of evs = [].
Proof.
  intros sc.
  destruct (seedDefaultAIConfigs_existing (memory_services sc)
              (fresh sc [default_text_config]) tt
              [default_text_config] [default_text_config]
              [default_text_config])
    as (s' & evs & Hrun & Hevs & _ & _ & Hcreates & _);
    [reflexivity | reflexivity | reflexivity | discriminate |].
  exists s', evs. auto.
Defined.

(** One run of the seeder in the cloud against a store that honours its
    contract and accepts every record. *)
Lemma seedDefaultAIConfigs_reliable (ext : Services)
    (stored : World ext -> list AIConfig) (s : state ext) :
  StoreContract ext stored ->
  CreateReturns ext ->
  isCloudEnvironment ext (process_env ext) = true ->
  exists s' evs,
    seedDefaultAIConfigs ext s = (Returned tt, s') /\
    emitted s s' evs /\
    (stored (world s) = [] ->
     creates_of evs = [default_text_config; default_image_config] /\
     stored (world s') = [default_text_config; default_image_config]) /\
    (stored (world s) <> [] ->
     creates_of evs = [] /\ stored (world s') = stored (world s)).
Proof.
  intros HC Hcreate Hcloud.
  unfold seedDefaultAIConfigs. rewrite Hcloud. unfold_task.
  destruct (new_contract _ _ HC (world s)) as (h & w1 & Hnew & Hs1).
  rewrite Hnew. reduce_task.
  destruct (findAll_contract _ _ HC h w1) as (w2 & Hfind & Hs2).
  rewrite Hfind. reduce_task.
  rewrite Hs1 in *.
  destruct (stored (world s)) as [|c rest] eqn:Hstored; reduce_task.
  - destruct (Hcreate h "text" "openrouter" "anthropic/claude-3.5-haiku"
                (Some "You are a helpful assistant.") w2) as (w3 & Htext).
    pose proof (create_contract _ _ HC h "text" "openrouter"
                  "anthropic/claude-3.5-haiku"
                  (Some "You are a helpful assistant.") w2) as Hs3.
    rewrite Htext in Hs3 |- *. reduce_task.
    destruct (Hcreate h "image" "openrouter"
                "google/gemini-2.5-flash-image-preview" None w3)
      as (w4 & Himage).
    pose proof (create_contract _ _ HC h "image" "openrouter"
                  "google/gemini-2.5-flash-image-preview" None w3) as Hs4.
    rewrite Himage in Hs4 |- *. reduce_task.
    eexists _, _. split; [reflexivity|].
    unfold emitted. cbn [world trace]. flatten_trace.
    split; [reflexivity|]. split; [|congruence].
    intros _. split; [reflexivity|].
    rewrite Hs4, Hs3, Hs2. reflexivity.
  - eexists _, _. split; [reflexivity|].
    unfold emitted. cbn [world trace]. flatten_trace.
    split; [reflexivity|]. split; [discriminate|].
    intros _. split; [reflexivity|]. exact Hs2.
Qed.

(** The in-memory double honours both contracts. *)
Lemma memory_store_contract (sc : script) :
  StoreContract (memory_services sc) (fun w => w).
Proof.
  split; simpl.
  - intros w. exists tt, w. auto.
  - intros _ w. exists w. auto.
  - intros _ modality provider model systemPrompt w.
    destruct (script_create_rejects sc _); reflexivity.
Qed.

Lemma memory_create_returns (sc : script) :
  (forall config, script_create_rejects sc config = None) ->
  CreateReturns (memory_services sc).
Proof.
  intros Hnone h modality provider model systemPrompt w. simpl.
  rewrite Hnone. eexists. reflexivity.
Qed.

(** C3: in a cloud environment with an empty store (the store honouring
    its contract and accepting the records) the seeder returns normally
    having invoked [create] exactly twice, first for the text config and
    then for the image config, with the field values below; afterwards
    the store holds exactly these two records in that order. *)
Theorem seedDefaultAIConfigs_fixed_content (ext : Services)
    (stored : World ext -> list AIConfig) (s : state ext) :
  StoreContract ext stored ->
  CreateReturns ext ->
  isCloudEnvironment ext (process_env ext) = true ->
  stored (world s) = [] ->
  exists s' evs,
    seedDefaultAIConfigs ext s = (Returned tt, s') /\
    emitted s s' evs /\
    creates_of evs =
      [ {| modality := "text"; provider := "openrouter";
           model := "anthropic/claude-3.5-haiku";
           systemPrompt := Some "You are a helpful assistant." |};
        {| modality := "image"; provider := "openrouter";
           model := "google/gemini-2.5-flash-image-preview";
           systemPrompt := None |} ] /\
    stored (world s') = creates_of evs.
Proof.
  intros HC Hcreate Hcloud Hempty.
  destruct (seedDefaultAIConfigs_reliable ext stored s HC Hcreate Hcloud)
    as (s' & evs & Hrun & Hevs & Hfresh & _).
  destruct (Hfresh Hempty) as [Hcreates Hstored].
  exists s', evs. rewrite Hstored, Hcreates. repeat split; assumption.
Qed.

Lemma seedDefaultAIConfigs_fixed_content_witness :
  let sc := nominal ∅ true in
  exists s' evs,
    seedDefaultAIConfigs (memory_services sc) (fresh sc [])
      = (Returned tt, s') /\
    emitted (fresh sc []) s' evs /\
    world s' = [default_text_config; default_image_config].
Proof.
  intros sc.
  destruct (seedDefaultAIConfigs_fixed_content (memory_services sc)
              (fun w => w) (fresh sc []))
    as (s' & evs & Hrun & Hevs & Hcreates & Hstored).
  - apply memory_store_contract.
  - apply memory_create_returns. reflexivity.
  - reflexivity.
  - reflexivity.
  - exists s', evs. rewrite Hstored, Hcreates. repeat split; assumption.
Defined.

(** C2: in a cloud environment, against a store that honours its
    contract and accepts the records, two seeder calls in a row both
    return normally; started on an empty store the first call leaves
    exactly the two default records; whatever the store held at the
    start, the second call invokes no [create] and leaves the store as
    the first call left it. *)
Theorem seedDefaultAIConfigs_idempotent (ext : Services)
    (stored : World ext -> list AIConfig) (s : state ext) :
  StoreContract ext stored ->
  CreateReturns ext ->
  isCloudEnvironment ext (process_env ext) = true ->
  exists s1 s2 evs1 evs2,
    seedDefaultAIConfigs ext s = (Returned tt, s1) /\
    seedDefaultAIConfigs ext s1 = (Returned tt, s2) /\
    emitted s s1 evs1 /\
    emitted s1 s2 evs2 /\
    (stored (world s) = [] ->
     stored (world s1) = [default_text_config; default_image_config] /\
     length (stored (world s1)) = 2%nat) /\
    creates_of evs2 = [] /\
    stored (world s2) = stored (world s1).
Proof.
  intros HC Hcreate Hcloud.
  destruct (seedDefaultAIConfigs_reliable ext stored s HC Hcreate Hcloud)
    as (s1 & evs1 & Hrun1 & Hevs1 & Hfresh1 & Hkept1).
  destruct (seedDefaultAIConfigs_reliable ext stored s1 HC Hcreate Hcloud)
    as (s2 & evs2 & Hrun2 & Hevs2 & _ & Hkept2).
  assert (Hfilled : stored (world s1) <> []).
  { destruct (stored (world s)) as [|c rest] eqn:Hstored.
    - destruct (Hfresh1 eq_refl) as [_ ->]. discriminate.
    - destruct Hkept1 as [_ ->]; discriminate. }
  destruct (Hkept2 Hfilled) as [Hnone Hsame].
  exists s1, s2, evs1, evs2.
  split; [exact Hrun1|]. split; [exact Hrun2|].
  split; [exact Hevs1|]. split; [exact Hevs2|].
  split; [|split; assumption].
  intros Hempty. destruct (Hfresh1 Hempty) as [_ Hstored].
  rewrite Hstored. split; reflexivity.
Qed.

Lemma seedDefaultAIConfigs_idempotent_witness :
  let sc := nominal ∅ true in
  exists s1 s2 evs1 evs2,
    seedDefaultAIConfigs (memory_services sc) (fresh sc [])
      = (Returned tt, s1) /\
    seedDefaultAIConfigs (memory_services sc) s1 = (Returned tt, s2) /\
    emitted (fresh sc []) s1 evs1 /\
    emitted s1 s2 evs2 /\
    creates_of evs2 = [] /\
    world s2 = world s1.
Proof.
  intros sc.
  destruct (seedDefaultAIConfigs_idempotent (memory_services sc)
              (fun w => w) (fresh sc []))
    as (s1 & s2 & evs1 & evs2 & H1 & H2 & H3 & H4 & _ & H5 & H6).
  - apply memory_store_contract.
  - apply memory_create_returns. reflexivity.
  - reflexivity.
  - exists s1, s2, evs1, evs2. repeat split; assumption.
Defined.

(** ** Facts on the trace checkers *)

Lemma in_order_weaken (a b : nat) (evs : list event) :
  (a <= b)%nat -> in_order b evs = true -> in_order a evs = true.
Proof.
  destruct evs as [|e rest]; [reflexivity|]. simpl.
  destruct (step_of e) as [st|]; [|discriminate].
  intros Hab H. apply andb_true_iff in H as [H1 H2].
  apply Nat.leb_le in H1.
  apply andb_true_iff. split; [apply Nat.leb_le; lia | exact H2].
Qed.

Lemma in_order_app (from : nat) (l1 l2 : list event) :
  in_order from (l1 ++ l2) =
  in_order from l1 && in_order (ending from l1) l2.
Proof.
  revert from. induction l1 as [|e l1 IH]; intros from; [reflexivity|].
  simpl. unfold ending. simpl.
  destruct (step_of e) as [st|]; [|reflexivity].
  rewrite IH. rewrite andb_assoc. reflexivity.
Qed.

Lemma all_in_order (st : step) (evs : list event) :
  all_in st evs = true ->
  in_order (rank st) evs = true /\ ending (rank st) evs = rank st.
Proof.
  unfold all_in, ending.
  induction evs as [|e rest IH]; [auto|]. simpl.
  intros H. apply andb_true_iff in H as [He Hrest].
  apply bool_decide_eq_true in He. rewrite He.
  destruct (IH Hrest) as [IH1 IH2].
  rewrite Nat.leb_refl, IH1, IH2. auto.
Qed.

Lemma in_order_spec (evs : list event) :
  forall from i j e1 e2,
    in_order from evs = true ->
    (i <= j)%nat -> evs !! i = Some e1 -> evs !! j = Some e2 ->
    exists st1 st2,
      step_of e1 = Some st1 /\ step_of e2 = Some st2 /\
      (from <= rank st1 <= rank st2)%nat.
Proof.
  induction evs as [|e rest IH]; intros from i j e1 e2 H Hij H1 H2;
    [destruct i; discriminate|].
  simpl in H. destruct (step_of e) as [st|] eqn:Hst; [|discriminate].
  apply andb_true_iff in H as [Hfrom Hrest]. apply Nat.leb_le in Hfrom.
  destruct i as [|i]; destruct j as [|j]; simpl in H1, H2.
  - injection H1 as <-. injection H2 as <-.
    exists st, st. rewrite Hst. repeat split; auto.
  - injection H1 as <-.
    destruct (IH (rank st) j j e2 e2 Hrest (Nat.le_refl j) H2 H2)
      as (st1 & st2 & _ & Hst2 & Hle).
    exists st, st2. repeat split; auto. lia.
  - lia.
  - destruct (IH (rank st) i j e1 e2 Hrest ltac:(lia) H1 H2)
      as (st1 & st2 & Hs1 & Hs2 & Hle).
    exists st1, st2. repeat split; auto; lia.
Qed.

Lemma settles_app_bounded (n : nat) :
  forall l1 l2, (length l1 <= n)%nat ->
    settles l1 = true -> settles (l1 ++ l2) = settles l2.
Proof.
  induction n as [|n IH]; intros l1 l2 Hlen H.
  - destruct l1; [reflexivity | simpl in Hlen; lia].
  - destruct l1 as [|e l1]; [reflexivity|].
    destruct e as [lvl m meta | op | op | op err]; simpl in H |- *;
      try discriminate.
    + apply IH; [simpl in Hlen; lia | exact H].
    + destruct l1 as [|e' l1]; [discriminate|].
      destruct e' as [lvl m meta | op' | op' | op' err]; simpl in H |- *;
        try discriminate;
        apply andb_true_iff in H as [-> H];
        apply IH; [simpl in Hlen; lia | exact H | simpl in Hlen; lia | exact H].
Qed.

Lemma settles_app (l1 l2 : list event) :
  settles l1 = true -> settles (l1 ++ l2) = settles l2.
Proof. apply (settles_app_bounded (length l1)). lia. Qed.

Lemma settles_spec_bounded (n : nat) :
  forall evs i op, (length evs <= n)%nat ->
    settles evs = true -> evs !! i = Some (Begin op) ->
    evs !! S i = Some (Done op) \/
    exists error, evs !! S i = Some (Failed op error).
Proof.
  induction n as [|n IH]; intros evs i op Hlen H Hi.
  - destruct evs; [destruct i; discriminate | simpl in Hlen; lia].
  - destruct evs as [|e evs]; [destruct i; discriminate|].
    destruct e as [lvl m meta | op0 | op0 | op0 err]; simpl in H;
      try discriminate.
    + destruct i as [|i]; [discriminate|]. simpl in Hi |- *.
      apply (IH evs i op); [simpl in Hlen; lia | exact H | exact Hi].
    + destruct evs as [|e' evs]; [discriminate|].
      destruct e' as [lvl m meta | op1 | op1 | op1 err]; simpl in H;
        try discriminate;
        apply andb_true_iff in H as [Heq H];
        apply bool_decide_eq_true in Heq; subst op1;
        (destruct i as [|[|i]]; simpl in Hi |- *;
         [ injection Hi as <-; eauto
         | discriminate
         | apply (IH evs i op); [simpl in Hlen; lia | exact H | exact Hi] ]).
Qed.

Lemma settles_spec (evs : list event) (i : nat) (op : operation) :
  settles evs = true -> evs !! i = Some (Begin op) ->
  evs !! S i = Some (Done op) \/
  exists error, evs !! S i = Some (Failed op error).
Proof. apply (settles_spec_bounded (length evs)). lia. Qed.

(** * The orchestrator *)

Lemma or_default_nonempty (v : jsstring) (fallback : string) :
  fallback <> "" -> or_default v fallback <> "".
Proof.
  intros Hne H. pose proof (or_default_truthy v fallback Hne) as Ht.
  simpl in Ht. rewrite H in Ht. discriminate.
Qed.

(** Inside [seedBackend] both credentials went through [||] with a
    non-empty literal, so the check takes its informational branch. *)
Lemma ensureFirstAdmin_defaults (ext : Services) (a b : jsstring)
    (fa fb : string) (s : state ext) :
  fa <> "" -> fb <> "" ->
  ensureFirstAdmin (Some (or_default a fa)) (Some (or_default b fb)) s =
  (Returned tt,
   emit (Logged Info (msg_admin_configured +:+ or_default a fa) []) s).
Proof.
  intros Ha Hb. unfold ensureFirstAdmin.
  rewrite (or_default_truthy a fa Ha), (or_default_truthy b fb Hb).
  reflexivity.
Qed.

(** All the paths of [seedBackend], acquisitions included. *)
Ltac seedBackend_paths :=
  unfold seedBackend, seedBackend_try, seedDefaultAIConfigs; unfold_task;
  next_answer;
  [ next_answer;
    [ rewrite ensureFirstAdmin_defaults by discriminate; unfold_task;
      all_paths
    | ]
  | ].

Ltac read_run :=
  eexists _, _, _; split; [reflexivity|];
  split; [unfold emitted; cbn [world trace]; flatten_trace;
          first [reflexivity | symmetry; apply app_nil_r]|].

(** Past the two acquisitions. *)
Ltac seedBackend_acquired Hauth Hdb :=
  unfold seedBackend; unfold_task;
  rewrite Hauth; reduce_task; rewrite Hdb; reduce_task;
  unfold seedBackend_try, seedDefaultAIConfigs; unfold_task;
  rewrite ensureFirstAdmin_defaults by discriminate; unfold_task.

(** Environment lookups play no part in the checks on a trace. *)
Ltac forget_env :=
  repeat match goal with
  | |- context [@lookup _ _ _ _ ?k (process_env ?e)] =>
      generalize (@lookup _ _ _ _ k (process_env e)); intro
  end.

Ltac seeder_paths :=
  unfold seedDefaultAIConfigs; unfold_task; all_paths.

(** C10: the two singleton acquisitions run before the [try] block.
    When [AuthService.getInstance()] throws, or when it returns and
    [DatabaseManager.getInstance()] throws, [seedBackend] throws the
    same value to its caller; the trace then ends with the failed
    acquisition: the banner was not reached and no error was logged. *)
Theorem seedBackend_acquisition_escapes (ext : Services) (s : state ext) :
  (forall error w,
     AuthService_getInstance ext (world s) = (Thrown error, w) ->
     seedBackend ext s =
     (Thrown error,
      mkState w (trace s ++ [Begin OpAuthGetInstance;
                             Failed OpAuthGetInstance error]))) /\
  (forall h w1 error w2,
     AuthService_getInstance ext (world s) = (Returned h, w1) ->
     DatabaseManager_getInstance ext w1 = (Thrown error, w2) ->
     seedBackend ext s =
     (Thrown error,
      mkState w2 (trace s ++ [Begin OpAuthGetInstance;
                              Done OpAuthGetInstance;
                              Begin OpDatabaseGetInstance;
                              Failed OpDatabaseGetInstance error]))).
Proof.
  split.
  - intros error w Hauth. unfold seedBackend. unfold_task.
    rewrite Hauth. reduce_task. flatten_trace. reflexivity.
  - intros h w1 error w2 Hauth Hdb. unfold seedBackend. unfold_task.
    rewrite Hauth. reduce_task. rewrite Hdb. reduce_task.
    flatten_trace. reflexivity.
Qed.

Lemma seedBackend_acquisition_escapes_witness :
  let boom := ErrorInstance "auth unavailable" in
  let down := ErrorInstance "database unavailable" in
  let sc1 := mkScript ∅ true (Some boom) None (Returned "ik_test")
               (Returned 0%Z) (fun _ => None) in
  let sc2 := mkScript ∅ true None (Some down) (Returned "ik_test")
               (Returned 0%Z) (fun _ => None) in
  fst (seedBackend (memory_services sc1) (fresh sc1 [])) = Thrown boom /\
  fst (seedBackend (memory_services sc2) (fresh sc2 [])) = Thrown down.
Proof.
  intros boom down sc1 sc2. split.
  - rewrite (proj1 (seedBackend_acquisition_escapes (memory_services sc1)
                      (fresh sc1 [])) boom []); reflexivity.
  - rewrite (proj2 (seedBackend_acquisition_escapes (memory_services sc2)
                      (fresh sc2 [])) tt [] down []); reflexivity.
Defined.

(** C1: the claim fails on the code.  With the API-key initialization
    throwing a value that the catch block cannot convert to text (for
    one, [Object.create(null)], on which [String] throws a
    [TypeError]), the conversion inside the catch block throws before
    [logger.error] is called: [seedBackend] throws that [TypeError] to
    its caller and no error line is logged. *)
Theorem seedBackend_catch_throws :
  let failure := ErrorInstance "Cannot convert object to primitive value" in
  let sc := mkScript ∅ true None None (Thrown (Unprintable failure))
              (Returned 0%Z) (fun _ => None) in
  let run := seedBackend (memory_services sc) (fresh sc []) in
  fst run = Thrown failure /\
  trace (snd run) =
    [Begin OpAuthGetInstance; Done OpAuthGetInstance;
     Begin OpDatabaseGetInstance; Done OpDatabaseGetInstance;
     Logged Info msg_starting [];
     Logged Info "✅ Admin configured: admin@example.com" [];
     Begin OpInitializeApiKey;
     Failed OpInitializeApiKey (Unprintable failure)] /\
  List.filter (is_log_at Error) (trace (snd run)) = [].
Proof. vm_compute. repeat split. Qed.

(** ** Order of the steps *)

(** Whatever the store does, the events of one seeder call all belong
    to the seeding step and every store call settles before the next
    event. *)
Lemma seedDefaultAIConfigs_segment (ext : Services) (s : state ext) :
  exists r s' evs,
    seedDefaultAIConfigs ext s = (r, s') /\
    emitted s s' evs /\
    all_in Seeding evs = true /\
    settles evs = true.
Proof.
  unfold seedDefaultAIConfigs. unfold_task.
  all_paths; eexists; read_trace; split; reflexivity.
Qed.

Lemma all_in_no_api_key (evs : list event) :
  all_in Seeding evs = true -> List.filter logs_api_key evs = [].
Proof.
  unfold all_in. induction evs as [|e rest IH]; [reflexivity|]. simpl.
  intros H. apply andb_true_iff in H as [He Hrest].
  apply bool_decide_eq_true in He. unfold logs_api_key at 1.
  rewrite He. simpl. apply IH, Hrest.
Qed.

Lemma in_order_sandwich (from : nat) (st : step)
    (pre mid post : list event) :
  in_order from pre = true ->
  (ending from pre <=? rank st)%nat = true ->
  all_in st mid = true ->
  in_order (rank st) post = true ->
  in_order from (pre ++ mid ++ post) = true.
Proof.
  intros Hpre Hle Hmid Hpost. apply Nat.leb_le in Hle.
  rewrite in_order_app, Hpre. simpl.
  apply (in_order_weaken _ (rank st)); [exact Hle|].
  destruct (all_in_order st mid Hmid) as [H1 H2].
  rewrite in_order_app, H1, H2. exact Hpost.
Qed.

Lemma settles_sandwich (pre mid post : list event) :
  settles pre = true -> settles mid = true -> settles post = true ->
  settles (pre ++ mid ++ post) = true.
Proof.
  intros Hpre Hmid Hpost.
  rewrite (settles_app _ _ Hpre), (settles_app _ _ Hmid). exact Hpost.
Qed.

Lemma no_api_key_sandwich (pre mid post : list event) :
  List.filter logs_api_key pre = [] ->
  all_in Seeding mid = true ->
  List.filter logs_api_key post = [] ->
  List.filter logs_api_key (pre ++ mid ++ post) = [].
Proof.
  intros Hpre Hmid Hpost.
  rewrite !List.filter_app, Hpre, Hpost, (all_in_no_api_key mid Hmid).
  reflexivity.
Qed.

(** One run of [seedBackend], checked: the final trace extends the
    initial one by events that are in step order and settle at once;
    and the API key is either never logged, or the run returned and
    splits into the events before the seeder call, the events of a
    seeder call that returned, and the two closing lines. *)
Lemma seedBackend_checked (ext : Services) (s : state ext) :
  exists r s' evs,
    seedBackend ext s = (r, s') /\
    emitted s s' evs /\
    in_order 0 evs = true /\
    settles evs = true /\
    (List.filter logs_api_key evs = [] \/
     (r = Returned tt /\
      exists s1 s2 before mid apiKey,
        seedDefaultAIConfigs ext s1 = (Returned tt, s2) /\
        emitted s s1 before /\
        emitted s1 s2 mid /\
        has_step Seeding before = false /\
        all_in Seeding mid = true /\
        evs = before ++ mid ++
              [Logged Info (msg_api_key +:+ apiKey) [];
               Logged Info msg_setup_complete []] /\
        s' = emit (Logged Info msg_setup_complete [])
               (emit (Logged Info (msg_api_key +:+ apiKey) []) s2))).
Proof.
  unfold seedBackend. unfold_task.
  next_answer; [next_answer|].
  - unfold seedBackend_try. unfold_task.
    rewrite ensureFirstAdmin_defaults by discriminate. unfold_task.
    all_paths.
    all: try match goal with
      | E : seedDefaultAIConfigs ?services ?sk = (_, ?s2) |- _ =>
          let r := fresh "r" in
          let s2' := fresh "s" in
          let mid := fresh "mid" in
          let Hrun := fresh "Hrun" in
          let Hmid := fresh "Hmid" in
          let Hall := fresh "Hall" in
          let Hsettles := fresh "Hsettles" in
          destruct (seedDefaultAIConfigs_segment services sk)
            as (r & s2' & mid & Hrun & Hmid & Hall & Hsettles);
          rewrite E in Hrun; injection Hrun as <- <-;
          unfold emitted in Hmid; cbn [trace] in Hmid
      end.
    all: try check_explicit.
    all: eexists _, _, _; (split; [reflexivity|]);
      (split; [unfold emitted; cbn [world trace]; rewrite Hmid;
               flatten_trace; reflexivity|]);
      as_sandwich.
    all: lazymatch goal with
      | |- in_order 0 (?PRE ++ ?MID ++ _) = true /\ _ =>
          (split; [apply in_order_sandwich with (st := Seeding);
                   [vm_compute; reflexivity | vm_compute; reflexivity
                   | assumption | vm_compute; reflexivity]|]);
          (split; [apply settles_sandwich;
                   [vm_compute; reflexivity | assumption
                   | vm_compute; reflexivity]|]);
          first
            [ left; apply no_api_key_sandwich;
              [vm_compute; reflexivity | assumption
              | vm_compute; reflexivity]
            | right; (split; [reflexivity|]);
              match goal with
              | E : seedDefaultAIConfigs _ ?sk = (Returned ?a, ?s2) |- _ =>
                  destruct a; exists sk, s2, PRE, MID
              end;
              eexists; (split; [eassumption|]);
              (split; [unfold emitted; cbn [trace]; flatten_trace;
                       reflexivity|]);
              (split; [exact Hmid|]);
              (split; [vm_compute; reflexivity|]);
              (split; [assumption|]);
              split; reflexivity ]
      end.
  - check_explicit.
  - check_explicit.
Qed.

Lemma filter_nil_existsb (f : event -> bool) (evs : list event) :
  List.filter f evs = [] -> existsb f evs = false.
Proof.
  induction evs as [|e rest IH]; [reflexivity|]. simpl.
  destruct (f e); [discriminate|]. exact IH.
Qed.

(** Which steps a run reaches: the acquisition always; the credential
    check and the API-key initialization once both singletons are
    there; each later step once the operation before it has returned;
    the seeding in the cloud only; the two closing lines when nothing
    has failed. *)
Lemma seedBackend_reaches (ext : Services) (s : state ext) :
  exists r s' evs,
    seedBackend ext s = (r, s') /\
    emitted s s' evs /\
    has_step Acquisition evs = true /\
    has_step CredentialCheck evs =
      existsb (is_done OpDatabaseGetInstance) evs /\
    has_step ApiKeyInitialization evs =
      existsb (is_done OpDatabaseGetInstance) evs /\
    has_step TableCountQuery evs =
      existsb (is_done OpInitializeApiKey) evs /\
    has_step ConnectivitySummary evs =
      existsb (is_done OpGetUserTableCount) evs /\
    has_step Seeding evs =
      existsb (is_done OpGetUserTableCount) evs &&
      isCloudEnvironment ext (process_env ext) /\
    has_step ApiKeyLog evs = negb (existsb is_failure evs) /\
    has_step SetupCompleteLog evs = negb (existsb is_failure evs).
Proof.
  destruct (isCloudEnvironment ext (process_env ext)) eqn:Hcloud;
    unfold seedBackend, seedBackend_try, seedDefaultAIConfigs;
    rewrite Hcloud; unfold_task;
    (next_answer;
     [ next_answer;
       [ rewrite ensureFirstAdmin_defaults by discriminate; unfold_task;
         all_paths | ] | ]);
    read_run; forget_env; vm_compute; repeat split.
Qed.

(** C9: in every run of [seedBackend] the steps are taken in the fixed
    order (acquisition and banner, credential check, API-key
    initialization, table-count query, connectivity summary,
    tables-found line, seeding, API-key line, setup-complete line, and
    the error line last).  Of any two events the earlier one belongs to
    the same or an earlier step, and every operation that is invoked
    settles before anything else happens.  The steps do run: the
    acquisition always; the credential check and the API-key
    initialization exactly when both singletons were acquired; the
    table-count query exactly when the API-key initialization returned;
    the connectivity summary exactly when the table-count query
    returned, and the seeding then in the cloud; the API-key line and
    the setup-complete line exactly when nothing failed.  And when the
    API key is logged, the run returned and consists of the events
    before the seeder call, the events of a seeder call that returned
    normally, and the two closing lines, logged on the state the
    seeder left. *)
Theorem seedBackend_step_order (ext : Services) (s : state ext) :
  exists r s' evs,
    seedBackend ext s = (r, s') /\
    emitted s s' evs /\
    (forall i j e1 e2,
       (i <= j)%nat -> evs !! i = Some e1 -> evs !! j = Some e2 ->
       exists st1 st2,
         step_of e1 = Some st1 /\ step_of e2 = Some st2 /\
         (rank st1 <= rank st2)%nat) /\
    (forall i op,
       evs !! i = Some (Begin op) ->
       evs !! S i = Some (Done op) \/
       exists error, evs !! S i = Some (Failed op error)) /\
    (has_step Acquisition evs = true /\
     has_step CredentialCheck evs =
       existsb (is_done OpDatabaseGetInstance) evs /\
     has_step ApiKeyInitialization evs =
       existsb (is_done OpDatabaseGetInstance) evs /\
     has_step TableCountQuery evs =
       existsb (is_done OpInitializeApiKey) evs /\
     has_step ConnectivitySummary evs =
       existsb (is_done OpGetUserTableCount) evs /\
     has_step Seeding evs =
       existsb (is_done OpGetUserTableCount) evs &&
       isCloudEnvironment ext (process_env ext) /\
     has_step ApiKeyLog evs = negb (existsb is_failure evs) /\
     has_step SetupCompleteLog evs = negb (existsb is_failure evs)) /\
    (has_step ApiKeyLog evs = true ->
     r = Returned tt /\
     exists s1 s2 before mid apiKey,
       seedDefaultAIConfigs ext s1 = (Returned tt, s2) /\
       emitted s s1 before /\
       emitted s1 s2 mid /\
       has_step Seeding before = false /\
       all_in Seeding mid = true /\
       evs = before ++ mid ++
             [Logged Info (msg_api_key +:+ apiKey) [];
              Logged Info msg_setup_complete []] /\
       s' = emit (Logged Info msg_setup_complete [])
              (emit (Logged Info (msg_api_key +:+ apiKey) []) s2)).
Proof.
  destruct (seedBackend_checked ext s)
    as (r & s' & evs & Hrun & Hevs & Horder & Hsettles & Hkey).
  destruct (seedBackend_reaches ext s)
    as (r0 & s0 & evs0 & Hrun0 & Hevs0 & Hreaches).
  rewrite Hrun in Hrun0. injection Hrun0 as <- <-.
  unfold emitted in Hevs, Hevs0. rewrite Hevs in Hevs0.
  apply app_inv_head in Hevs0. subst evs0.
  exists r, s', evs. split; [exact Hrun|]. split; [exact Hevs|].
  split; [|split; [|split; [exact Hreaches|]]].
  - intros i j e1 e2 Hij H1 H2.
    destruct (in_order_spec evs 0 i j e1 e2 Horder Hij H1 H2)
      as (st1 & st2 & Hs1 & Hs2 & Hle).
    exists st1, st2. repeat split; [assumption | assumption | lia].
  - intros i op Hi. apply (settles_spec evs i op Hsettles Hi).
  - intros Hlogged. destruct Hkey as [Hnone | Hsplit]; [|exact Hsplit].
    apply filter_nil_existsb in Hnone.
    unfold has_step, is_step in Hlogged. unfold logs_api_key in Hnone.
    congruence.
Qed.

(** ** Failure isolation *)

(** C6: the claim fails on the code.  With the store accepting the
    text config and rejecting the image config with a value that the
    catch block cannot convert to text (for one, [Object.create(null)],
    on which [String] throws a [TypeError]), the first record stays
    persisted, but the orchestrator does not complete normally: the
    conversion inside the catch block throws, no error line is logged
    and [seedBackend] throws the [TypeError] to its caller. *)
Theorem seedBackend_partial_seed_throws :
  let failure := ErrorInstance "Cannot convert object to primitive value" in
  let sc := mkScript ∅ true None None (Returned "ik_test") (Returned 0%Z)
              (fun config =>
                 if String.eqb (modality config) "image"
                 then Some (Unprintable failure) else None) in
  let run := seedBackend (memory_services sc) (fresh sc []) in
  fst run = Thrown failure /\
  world (snd run) = [default_text_config] /\
  List.filter (fun e => negb (is_log e)) (trace (snd run)) =
    [Begin OpAuthGetInstance; Done OpAuthGetInstance;
     Begin OpDatabaseGetInstance; Done OpDatabaseGetInstance;
     Begin OpInitializeApiKey; Done OpInitializeApiKey;
     Begin OpGetUserTableCount; Done OpGetUserTableCount;
     Begin OpNewAIConfigService; Done OpNewAIConfigService;
     Begin OpFindAll; Done OpFindAll;
     Begin (OpCreate default_text_config);
     Done (OpCreate default_text_config);
     Begin (OpCreate default_image_config);
     Failed (OpCreate default_image_config) (Unprintable failure)] /\
  List.filter (is_log_at Error) (trace (snd run)) = [].
Proof. vm_compute. repeat split. Qed.

(** X15: in a cloud environment with an empty store, the other services
    answering, when [create] returns for the text config and throws,
    for the image config, a value whose text the catch block can
    compute, [seedBackend] returns normally.  The run ends with the
    successful text [create], the failed image [create] and the single
    error line carrying that text; nothing follows the failure (no
    further store call, so nothing is rolled back or retried), and
    afterwards the store holds exactly the text record. *)
Theorem seedBackend_partial_seed_logged (ext : Services)
    (stored : World ext -> list AIConfig) (s : state ext)
    (error : thrown) (text : string) :
  StoreContract ext stored ->
  StartupContract ext stored ->
  isCloudEnvironment ext (process_env ext) = true ->
  stored (world s) = [] ->
  error_text error = Returned text ->
  (forall h w, exists w',
     create ext h "text" "openrouter" "anthropic/claude-3.5-haiku"
       (Some "You are a helpful assistant.") w = (Returned tt, w')) ->
  (forall h w, exists w',
     create ext h "image" "openrouter"
       "google/gemini-2.5-flash-image-preview" None w = (Thrown error, w')) ->
  exists s' evs,
    seedBackend ext s = (Returned tt, s') /\
    emitted s s' evs /\
    (exists pre,
       evs = pre ++ [Begin (OpCreate default_text_config);
                     Done (OpCreate default_text_config);
                     Begin (OpCreate default_image_config);
                     Failed (OpCreate default_image_config) error;
                     Logged Error "Error during setup" [("error", text)]] /\
       List.filter is_failure pre = [] /\
       List.filter (is_log_at Error) pre = [] /\
       creates_of pre = []) /\
    stored (world s') = [default_text_config].
Proof.
  intros HC HS Hcloud Hempty Htxt Htext Himage.
  unfold seedBackend. unfold_task.
  destruct (auth_contract _ _ HS (world s)) as (a & w1 & Ha & Hs1).
  rewrite Ha. reduce_task.
  destruct (database_contract _ _ HS w1) as (d & w2 & Hd & Hs2).
  rewrite Hd. reduce_task.
  unfold seedBackend_try, seedDefaultAIConfigs. rewrite Hcloud. unfold_task.
  rewrite ensureFirstAdmin_defaults by discriminate. unfold_task.
  destruct (api_key_contract _ _ HS a w2) as (key & w3 & Hk & Hs3).
  rewrite Hk. reduce_task.
  destruct (table_count_contract _ _ HS d w3) as (n & w4 & Hn & Hs4).
  rewrite Hn. reduce_task.
  assert (Hstored4 : stored w4 = []) by congruence.
  destruct (new_contract _ _ HC w4) as (h & w5 & Hnew & Hs5).
  destruct (findAll_contract _ _ HC h w5) as (w6 & Hfind & Hs6).
  rewrite Hs5, Hstored4 in Hfind.
  destruct (Htext h w6) as (w7 & Hcreate1).
  pose proof (create_contract _ _ HC h "text" "openrouter"
                "anthropic/claude-3.5-haiku"
                (Some "You are a helpful assistant.") w6) as Hs7.
  rewrite Hcreate1 in Hs7.
  destruct (Himage h w7) as (w8 & Hcreate2).
  pose proof (create_contract _ _ HC h "image" "openrouter"
                "google/gemini-2.5-flash-image-preview" None w7) as Hs8.
  rewrite Hcreate2 in Hs8.
  assert (Hfinal : stored w8 = [default_text_config]).
  { rewrite Hs8, Hs7, Hs6, Hs5, Hstored4. reflexivity. }
  destruct (number_positive n); reduce_task;
    rewrite Hnew; reduce_task; rewrite Hfind; reduce_task;
    rewrite Hcreate1; reduce_task; rewrite Hcreate2; reduce_task;
    rewrite Htxt; reduce_task;
    read_trace;
    (split; [|exact Hfinal]);
    split_before_last 5%nat; repeat split; reflexivity.
Qed.

Lemma seedBackend_partial_seed_logged_witness :
  let sc := image_rejected ∅ in
  exists s',
    seedBackend (memory_services sc) (fresh sc []) = (Returned tt, s') /\
    world s' = [default_text_config].
Proof.
  intros sc.
  destruct (seedBackend_partial_seed_logged (memory_services sc)
              (fun w => w) (fresh sc []) (ErrorInstance "insert failed")
              "insert failed")
    as (s' & evs & Hrun & _ & _ & Hstored).
  - apply memory_store_contract.
  - split; simpl; intros; eexists _, _; split; reflexivity.
  - reflexivity.
  - reflexivity.
  - reflexivity.
  - intros h w. eexists. reflexivity.
  - intros h w. eexists. reflexivity.
  - exists s'. split; assumption.
Defined.

(** ** Defaulting of the admin credentials *)

(** C8, as the code has it: with [ADMIN_EMAIL] and [ADMIN_PASSWORD]
    unset, and the two singletons acquired, [seedBackend] runs its
    [try] block on the placeholders [admin@example.com] and
    [change-this-password] and does not fail closed: after the banner
    it logs the informational line
    "Admin configured: admin@example.com", logs no warning and goes on
    to the API-key initialization; it returns normally whenever every
    value thrown afterwards can be converted to text by the catch block.
    The placeholder password is only tested for presence: the run is
    the same for every other non-empty password, so the password is not
    among the logged values. *)
Theorem seedBackend_placeholders (ext : Services) (s : state ext)
    (h : AuthService ext) (d : DatabaseManager ext) (w1 w2 : World ext) :
  AuthService_getInstance ext (world s) = (Returned h, w1) ->
  DatabaseManager_getInstance ext w1 = (Returned d, w2) ->
  process_env ext !! "ADMIN_EMAIL" = None ->
  process_env ext !! "ADMIN_PASSWORD" = None ->
  let acquired :=
    mkState w2 (trace s ++ [Begin OpAuthGetInstance;
                            Done OpAuthGetInstance;
                            Begin OpDatabaseGetInstance;
                            Done OpDatabaseGetInstance]) in
  seedBackend ext s =
    try_catch
      (seedBackend_try h d "admin@example.com" "change-this-password")
      seedBackend_catch acquired /\
  (forall password, password <> "" ->
     try_catch (seedBackend_try h d "admin@example.com" password)
       seedBackend_catch acquired =
     try_catch
       (seedBackend_try h d "admin@example.com" "change-this-password")
       seedBackend_catch acquired) /\
  exists r s' rest,
    seedBackend ext s = (r, s') /\
    emitted s s'
      ([Begin OpAuthGetInstance; Done OpAuthGetInstance;
        Begin OpDatabaseGetInstance; Done OpDatabaseGetInstance;
        Logged Info msg_starting [];
        Logged Info "✅ Admin configured: admin@example.com" [];
        Begin OpInitializeApiKey] ++ rest) /\
    List.filter (is_log_at Warn) rest = [] /\
    ((forall op error, In (Failed op error) rest ->
        exists text, error_text error = Returned text) ->
     r = Returned tt).
Proof.
  intros Hauth Hdb Hemail Hpassword acquired. subst acquired.
  split; [|split].
  - unfold seedBackend. unfold_task.
    rewrite Hauth. reduce_task. rewrite Hdb. reduce_task.
    rewrite Hemail, Hpassword. cbn [or_default].
    flatten_trace. reflexivity.
  - intros password Hne. unfold seedBackend_try.
    assert (Hcheck :
      @ensureFirstAdmin ext (Some "admin@example.com") (Some password) =
      ensureFirstAdmin (Some "admin@example.com")
        (Some "change-this-password")).
    { unfold ensureFirstAdmin. cbn [truthy].
      apply String.eqb_neq in Hne. rewrite Hne. reflexivity. }
    rewrite Hcheck. reflexivity.
  - unfold seedBackend. unfold_task.
    rewrite Hauth. reduce_task. rewrite Hdb. reduce_task.
    rewrite Hemail, Hpassword. cbn [or_default].
    unfold seedBackend_try, seedDefaultAIConfigs. unfold_task.
    change (ensureFirstAdmin (Some "admin@example.com")
              (Some "change-this-password"))
      with (@logger_info ext "✅ Admin configured: admin@example.com" []).
    unfold_task.
    all_paths; eexists _, _, _; (split; [reflexivity|]);
      (split; [unfold emitted; cbn [world trace]; flatten_trace;
               reflexivity|]);
      (split; [reflexivity|]);
      first
        [ intros _; reflexivity
        | intros Hprintable;
          match goal with
          | E : error_text ?e = Thrown _ |- _ =>
              match type of Hprintable with
              | forall op error, In _ ?l -> _ =>
                  eassert (Hin : In (Failed _ e) l)
                    by (cbn [In];
                        repeat (first [left; reflexivity | right]));
                  destruct (Hprintable _ _ Hin) as [text Htext];
                  congruence
              end
          end ].
Qed.

Lemma seedBackend_placeholders_witness :
  let sc := nominal ∅ true in
  exists r s' rest,
    seedBackend (memory_services sc) (fresh sc []) = (r, s') /\
    emitted (fresh sc []) s'
      ([Begin OpAuthGetInstance; Done OpAuthGetInstance;
        Begin OpDatabaseGetInstance; Done OpDatabaseGetInstance;
        Logged Info msg_starting [];
        Logged Info "✅ Admin configured: admin@example.com" [];
        Begin OpInitializeApiKey] ++ rest).
Proof.
  intros sc.
  destruct (seedBackend_placeholders (memory_services sc) (fresh sc [])
              tt tt [] [])
    as (_ & _ & r & s' & rest & Hrun & Hevs & _);
    [reflexivity | reflexivity | reflexivity | reflexivity |].
  exists r, s', rest. split; assumption.
Defined.

(** C8, as stated, fails: with both variables unset and every service
    answering, the placeholder email is logged but no log line mentions
    the placeholder password. *)
Lemma placeholder_password_not_logged :
  let sc := nominal ∅ true in
  let evs := trace (snd (seedBackend (memory_services sc) (fresh sc []))) in
  fst (seedBackend (memory_services sc) (fresh sc [])) = Returned tt /\
  logs_value "admin@example.com" evs = true /\
  ~ (logs_value "admin@example.com" evs = true /\
     logs_value "change-this-password" evs = true).
Proof.
  intros sc evs. split; [reflexivity|]. split; [reflexivity|].
  intros [_ H]. vm_compute in H. discriminate.
Qed.


(** * Concrete runs against the in-memory double *)

(** A first boot in the cloud with nothing set: every step shows up, in
    order, and the store ends up with the two default records. *)
Example first_boot_steps :
  let sc := nominal ∅ true in
  let run := seedBackend (memory_services sc) (fresh sc []) in
  fst run = Returned tt /\
  world (snd run) = [default_text_config; default_image_config] /\
  map step_of (List.filter is_log (trace (snd run))) =
    [Some Acquisition; Some CredentialCheck; Some ConnectivitySummary;
     Some TablesFound; Some Seeding; Some ApiKeyLog; Some SetupCompleteLog].
Proof. vm_compute. repeat split. Qed.

(** A restart: the store already holds the two records, nothing is
    created and the confirmation is not logged again. *)
Example restart_steps :
  let sc := nominal ∅ true in
  let run :=
    seedBackend (memory_services sc)
      (fresh sc [default_text_config; default_image_config]) in
  fst run = Returned tt /\
  world (snd run) = [default_text_config; default_image_config] /\
  creates_of (trace (snd run)) = [] /\
  existsb (mentions "Default AI models configured") (trace (snd run))
    = false.
Proof. vm_compute. repeat split. Qed.

(** The API key cannot be initialized: the run stops there, logs the
    error and still returns. *)
Example api_key_failure :
  let sc := mkScript ∅ true None None (Thrown (ErrorInstance "no key"))
              (Returned 0%Z) (fun _ => None) in
  let run := seedBackend (memory_services sc) (fresh sc []) in
  fst run = Returned tt /\
  world (snd run) = [] /\
  List.filter (fun e => negb (is_log_at Info e)) (trace (snd run)) =
    [Begin OpAuthGetInstance; Done OpAuthGetInstance;
     Begin OpDatabaseGetInstance; Done OpDatabaseGetInstance;
     Begin OpInitializeApiKey;
     Failed OpInitializeApiKey (ErrorInstance "no key");
     Logged Error "Error during setup" [("error", "no key")]].
Proof. vm_compute. repeat split. Qed.

(** * Further properties of the three functions *)

(** X1: whatever the environment and the services, [seedBackend] never
    logs a warning: both credentials have gone through [||] with a
    non-empty literal, so the warning branch of the credential check is
    not reachable from [seedBackend]. *)
Theorem seedBackend_never_warns (ext : Services) (s : state ext) :
  exists r s' evs,
    seedBackend ext s = (r, s') /\
    emitted s s' evs /\
    List.filter (is_log_at Warn) evs = [].
Proof. seedBackend_paths; read_run; reflexivity. Qed.

(** X2: what leaves [seedBackend].  It throws in two situations only:
    one of the two singleton acquisitions throws (the run is then the
    failed acquisition alone, nothing is logged); or an operation
    inside the [try] block throws a value that the catch block cannot
    convert to text, and then [seedBackend] throws what the conversion
    throws, without an error line.  In every other run it returns:
    without any failure and without an error line, or after exactly one
    failure, followed at once by the single "Error during setup" line
    that carries the text of the caught value and ends the run. *)
Theorem seedBackend_escapes (ext : Services) (s : state ext) :
  exists r s' evs,
    seedBackend ext s = (r, s') /\
    emitted s s' evs /\
    match r with
    | Thrown error =>
        evs = [Begin OpAuthGetInstance; Failed OpAuthGetInstance error] \/
        evs = [Begin OpAuthGetInstance; Done OpAuthGetInstance;
               Begin OpDatabaseGetInstance;
               Failed OpDatabaseGetInstance error] \/
        exists op caught pre,
          evs = pre ++ [Begin op; Failed op caught] /\
          error_text caught = Thrown error /\
          step_of_operation op <> Acquisition /\
          List.filter is_failure pre = [] /\
          List.filter (is_log_at Error) evs = []
    | Returned _ =>
        (List.filter is_failure evs = [] /\
         List.filter (is_log_at Error) evs = []) \/
        exists op caught text pre,
          evs = pre ++ [Failed op caught;
                        Logged Error "Error during setup"
                               [("error", text)]] /\
          error_text caught = Returned text /\
          List.filter is_failure pre = [] /\
          List.filter (is_log_at Error) pre = []
    end.
Proof.
  seedBackend_paths; read_run;
    first
      [ left; reflexivity
      | right; left; reflexivity
      | left; split; reflexivity
      | right; eexists _, _, _; split_before_last 2%nat;
        split; [reflexivity|]; split; [eassumption|];
        split; reflexivity
      | right; right; eexists _, _; split_before_last 2%nat;
        split; [reflexivity|]; split; [eassumption|];
        split; [discriminate|]; split; reflexivity ].
Qed.

(** X3: no operation is retried: in every run of [seedBackend] each
    operation is invoked at most once (the two [create] calls are for
    distinct configs), so a run makes at most eight calls. *)
Theorem seedBackend_no_retry (ext : Services) (s : state ext) :
  exists r s' evs,
    seedBackend ext s = (r, s') /\
    emitted s s' evs /\
    NoDup (begins evs) /\
    (length (begins evs) <= 8)%nat.
Proof.
  seedBackend_paths; read_run;
    (split; [apply (bool_decide_unpack _); vm_compute; exact I
            | cbn [begins length]; lia]).
Qed.

(** X4: the API key and the closing summary are logged exactly in the
    runs without failure: when any operation fails, API-key
    initialization included or not, neither line is logged, so a key
    that was obtained before a later failure is never shown; when
    nothing fails both lines are logged. *)
Theorem seedBackend_key_logged_iff_no_failure (ext : Services)
    (s : state ext) :
  exists r s' evs,
    seedBackend ext s = (r, s') /\
    emitted s s' evs /\
    has_step ApiKeyLog evs = negb (existsb is_failure evs) /\
    has_step SetupCompleteLog evs = negb (existsb is_failure evs).
Proof.
  seedBackend_paths; read_run; split; vm_compute; reflexivity.
Qed.

Lemma or_default_set (v fallback : string) :
  v <> "" -> or_default (Some v) fallback = v.
Proof.
  intros Hne. unfold or_default, truthy.
  apply String.eqb_neq in Hne. rewrite Hne. reflexivity.
Qed.

(** X5: the key that is logged is the key [initializeApiKey] returned:
    once that call has returned [key], the run logs the line
    "API key generated: key" exactly once when nothing fails afterwards
    and no API-key line at all when something does. *)
Theorem seedBackend_logs_returned_key (ext : Services) (s : state ext)
    (h : AuthService ext) (d : DatabaseManager ext) (w1 w2 w3 : World ext)
    (key : string) :
  AuthService_getInstance ext (world s) = (Returned h, w1) ->
  DatabaseManager_getInstance ext w1 = (Returned d, w2) ->
  initializeApiKey ext h w2 = (Returned key, w3) ->
  exists r s' evs,
    seedBackend ext s = (r, s') /\
    emitted s s' evs /\
    List.filter (is_step ApiKeyLog) evs =
      if existsb is_failure evs then []
      else [Logged Info ("API key generated: " +:+ key) []].
Proof.
  intros Hauth Hdb Hkey. seedBackend_acquired Hauth Hdb.
  rewrite Hkey. all_paths; read_run; forget_env; vm_compute; reflexivity.
Qed.

Lemma seedBackend_logs_returned_key_witness :
  let sc := nominal ∅ false in
  exists r s' evs,
    seedBackend (memory_services sc) (fresh sc []) = (r, s') /\
    emitted (fresh sc []) s' evs /\
    List.filter (is_step ApiKeyLog) evs =
      if existsb is_failure evs then []
      else [Logged Info ("API key generated: " +:+ "ik_test") []].
Proof.
  intros sc.
  apply (seedBackend_logs_returned_key (memory_services sc)
           (fresh sc []) tt tt [] [] [] "ik_test"); reflexivity.
Defined.

(** X6: the tables-found line depends on the test [tableCount > 0]
    alone: once [getUserTableCount] has returned a number, the run logs
    "Found ... user tables", with the number as a template literal
    prints it, exactly once when the number is positive, and no such
    line when it is not (zero, negative, [NaN]). *)
Theorem seedBackend_tables_found (ext : Services) (s : state ext)
    (h : AuthService ext) (d : DatabaseManager ext)
    (w1 w2 w3 w4 : World ext) (key : string) (n : jsnumber) :
  AuthService_getInstance ext (world s) = (Returned h, w1) ->
  DatabaseManager_getInstance ext w1 = (Returned d, w2) ->
  initializeApiKey ext h w2 = (Returned key, w3) ->
  getUserTableCount ext d w3 = (Returned n, w4) ->
  exists r s' evs,
    seedBackend ext s = (r, s') /\
    emitted s s' evs /\
    List.filter (is_step TablesFound) evs =
      if number_positive n
      then [Logged Info ("✅ Found " +:+ number_text n +:+ " user tables")
              []]
      else [].
Proof.
  intros Hauth Hdb Hkey Hcount. seedBackend_acquired Hauth Hdb.
  rewrite Hkey. reduce_task. rewrite Hcount.
  all_paths; read_run; forget_env; vm_compute; reflexivity.
Qed.

Lemma seedBackend_tables_found_witness :
  let sc := nominal ∅ false in
  exists r s' evs,
    seedBackend (memory_services sc) (fresh sc []) = (r, s') /\
    emitted (fresh sc []) s' evs /\
    List.filter (is_step TablesFound) evs =
      [Logged Info "✅ Found 3 user tables" []].
Proof.
  intros sc.
  apply (seedBackend_tables_found (memory_services sc)
           (fresh sc []) tt tt [] [] [] [] "ik_test" (number_of_Z 3));
    reflexivity.
Defined.

(** X7: the connectivity summary is logged exactly in the runs in which
    the table-count query returned, once, and its metadata are the
    values of [POSTGRES_HOST], [POSTGRES_PORT] and [POSTGRES_DB] passed
    through [||] with [localhost], [5432] and [insforge]; no service is
    asked for them. *)
Theorem seedBackend_connectivity_line (ext : Services) (s : state ext) :
  exists r s' evs,
    seedBackend ext s = (r, s') /\
    emitted s s' evs /\
    List.filter (is_step ConnectivitySummary) evs =
      if existsb (is_done OpGetUserTableCount) evs
      then [Logged Info "✅ Database connected to PostgreSQL"
              [("host",
                or_default (process_env ext !! "POSTGRES_HOST") "localhost");
               ("port",
                or_default (process_env ext !! "POSTGRES_PORT") "5432");
               ("database",
                or_default (process_env ext !! "POSTGRES_DB") "insforge")]]
      else [].
Proof.
  seedBackend_paths; read_run; forget_env; vm_compute; reflexivity.
Qed.

(** X8: the email in the credential line is the value of [ADMIN_EMAIL]
    when that is a non-empty string, and the placeholder when the
    variable is set to the empty string, exactly as when it is unset. *)
Theorem seedBackend_admin_email (ext : Services) (s : state ext)
    (h : AuthService ext) (d : DatabaseManager ext) (w1 w2 : World ext) :
  AuthService_getInstance ext (world s) = (Returned h, w1) ->
  DatabaseManager_getInstance ext w1 = (Returned d, w2) ->
  exists r s' evs,
    seedBackend ext s = (r, s') /\
    emitted s s' evs /\
    (forall email,
       process_env ext !! "ADMIN_EMAIL" = Some email -> email <> "" ->
       List.filter (is_step CredentialCheck) evs =
         [Logged Info ("✅ Admin configured: " +:+ email) []]) /\
    (process_env ext !! "ADMIN_EMAIL" = Some "" ->
     List.filter (is_step CredentialCheck) evs =
       [Logged Info "✅ Admin configured: admin@example.com" []]).
Proof.
  intros Hauth Hdb. seedBackend_acquired Hauth Hdb.
  all_paths; read_run;
    (split;
     [ intros email Henv Hne; rewrite Henv, (or_default_set _ _ Hne)
     | intros Henv; rewrite Henv; cbn [or_default truthy String.eqb negb] ]);
    forget_env; vm_compute; reflexivity.
Qed.

Lemma seedBackend_admin_email_witness :
  let sc := nominal {["ADMIN_EMAIL" := "root@insforge.dev"]} false in
  exists r s' evs,
    seedBackend (memory_services sc) (fresh sc []) = (r, s') /\
    emitted (fresh sc []) s' evs /\
    List.filter (is_step CredentialCheck) evs =
      [Logged Info "✅ Admin configured: root@insforge.dev" []].
Proof.
  intros sc.
  destruct (seedBackend_admin_email (memory_services sc)
              (fresh sc []) tt tt [] [])
    as (r & s' & evs & Hrun & Hevs & Hset & _);
    [reflexivity | reflexivity |].
  exists r, s', evs. split; [exact Hrun|]. split; [exact Hevs|].
  apply Hset; [reflexivity | discriminate].
Defined.

(** ** The seeder against an arbitrary store *)

(** X9: whatever the environment and the store do, the seeder never
    creates anything but the two default configs, never the image
    config without having first asked for the text config, and never
    more than one of each. *)
Theorem seedDefaultAIConfigs_creates_prefix (ext : Services)
    (s : state ext) :
  exists r s' evs,
    seedDefaultAIConfigs ext s = (r, s') /\
    emitted s s' evs /\
    (creates_of evs = [] \/
     creates_of evs = [default_text_config] \/
     creates_of evs = [default_text_config; default_image_config]).
Proof. seeder_paths; read_run; cbn [creates_of]; auto. Qed.

(** X10: the seeder logs one line at most, the confirmation, and it
    logs it exactly in the runs in which it returns after the image
    [create] has returned; in every other run (not a cloud environment,
    a non-empty store, a store operation that throws) it logs
    nothing. *)
Theorem seedDefaultAIConfigs_confirmation (ext : Services)
    (s : state ext) :
  exists r s' evs,
    seedDefaultAIConfigs ext s = (r, s') /\
    emitted s s' evs /\
    List.filter is_log evs =
      (if existsb (is_done (OpCreate default_image_config)) evs
       then [Logged Info
               "✅ Default AI models configured (cloud environment)" []]
       else []) /\
    (existsb (is_done (OpCreate default_image_config)) evs = true ->
     r = Returned tt /\
     existsb (is_done (OpCreate default_text_config)) evs = true).
Proof.
  seeder_paths; read_run;
    (split; [vm_compute; reflexivity|]);
    intros Hdone; vm_compute in Hdone; try discriminate Hdone;
    split; reflexivity.
Qed.

(** X11: the seeder has no recovery of its own: it throws exactly when
    one of its store operations (construction, [findAll], [create])
    throws, it throws that very value, and the failed operation is the
    last event of its run; when it returns, no operation has failed. *)
Theorem seedDefaultAIConfigs_propagates (ext : Services) (s : state ext) :
  exists r s' evs,
    seedDefaultAIConfigs ext s = (r, s') /\
    emitted s s' evs /\
    match r with
    | Returned _ => List.filter is_failure evs = []
    | Thrown error =>
        exists op pre,
          evs = pre ++ [Begin op; Failed op error] /\
          step_of_operation op = Seeding /\
          List.filter is_failure pre = []
    end.
Proof.
  seeder_paths; read_run;
    first [ reflexivity
          | eexists; split_before_last 2%nat;
            split; [reflexivity|]; split; reflexivity ].
Qed.

(** X12: outside a cloud environment a whole run of [seedBackend],
    whatever the services do, makes no call to the AI configuration
    store: the service is not even constructed. *)
Theorem seedBackend_not_cloud_no_store (ext : Services) (s : state ext) :
  isCloudEnvironment ext (process_env ext) = false ->
  exists r s' evs,
    seedBackend ext s = (r, s') /\
    emitted s s' evs /\
    List.filter is_store_call evs = [].
Proof.
  intros Hcloud.
  unfold seedBackend, seedBackend_try, seedDefaultAIConfigs.
  rewrite Hcloud. unfold_task.
  next_answer;
    [ next_answer;
      [ rewrite ensureFirstAdmin_defaults by discriminate; unfold_task;
        all_paths | ] | ];
    read_run; reflexivity.
Qed.

Lemma seedBackend_not_cloud_no_store_witness :
  let sc := nominal ∅ false in
  exists r s' evs,
    seedBackend (memory_services sc) (fresh sc []) = (r, s') /\
    emitted (fresh sc []) s' evs /\
    List.filter is_store_call evs = [].
Proof.
  intros sc.
  apply (seedBackend_not_cloud_no_store (memory_services sc) (fresh sc [])).
  reflexivity.
Defined.

(** X13: a run of [seedBackend] against a store that already holds at
    least one config, the services honouring their contracts, returns
    without failure, invokes no [create] and leaves the stored configs
    as they were, in the cloud or not.  In particular a store left with
    the text config alone by an earlier failed seeding is not completed
    by a later run. *)
Theorem seedBackend_keeps_filled_store (ext : Services)
    (stored : World ext -> list AIConfig) (s : state ext) :
  StoreContract ext stored ->
  StartupContract ext stored ->
  stored (world s) <> [] ->
  exists s' evs,
    seedBackend ext s = (Returned tt, s') /\
    emitted s s' evs /\
    List.filter is_failure evs = [] /\
    creates_of evs = [] /\
    stored (world s') = stored (world s).
Proof.
  intros HC HS Hfilled.
  unfold seedBackend. unfold_task.
  destruct (auth_contract _ _ HS (world s)) as (a & w1 & Ha & Hs1).
  rewrite Ha. reduce_task.
  destruct (database_contract _ _ HS w1) as (d & w2 & Hd & Hs2).
  rewrite Hd. reduce_task.
  unfold seedBackend_try, seedDefaultAIConfigs. unfold_task.
  rewrite ensureFirstAdmin_defaults by discriminate. unfold_task.
  destruct (api_key_contract _ _ HS a w2) as (key & w3 & Hk & Hs3).
  rewrite Hk. reduce_task.
  destruct (table_count_contract _ _ HS d w3) as (n & w4 & Hn & Hs4).
  rewrite Hn. reduce_task.
  assert (Hstored4 : stored w4 = stored (world s)) by congruence.
  destruct (new_contract _ _ HC w4) as (h & w5 & Hnew & Hs5).
  destruct (findAll_contract _ _ HC h w5) as (w6 & Hfind & Hs6).
  assert (Hstored6 : stored w6 = stored (world s)) by congruence.
  rewrite Hs5, Hstored4 in Hfind.
  destruct (stored (world s)) as [|c rest] eqn:Hstored; [congruence|].
  destruct (number_positive n);
    (destruct (isCloudEnvironment ext (process_env ext)); reduce_task;
     [ rewrite Hnew; reduce_task; rewrite Hfind; reduce_task | ]);
    read_trace; repeat split; assumption.
Qed.

Lemma seedBackend_keeps_filled_store_witness :
  let sc := nominal ∅ true in
  exists s' evs,
    seedBackend (memory_services sc) (fresh sc [default_text_config])
      = (Returned tt, s') /\
    emitted (fresh sc [default_text_config]) s' evs /\
    creates_of evs = [] /\
    world s' = [default_text_config].
Proof.
  intros sc.
  destruct (seedBackend_keeps_filled_store (memory_services sc) (fun w => w)
              (fresh sc [default_text_config]))
    as (s' & evs & Hrun & Hevs & _ & Hcreates & Hstored).
  - apply memory_store_contract.
  - split; simpl; intros; eexists _, _; split; reflexivity.
  - discriminate.
  - exists s', evs. repeat split; assumption.
Defined.

(** X14: the value of [ADMIN_PASSWORD] has no influence on a run: under
    any two environments that differ at most in that variable (set,
    empty or unset) and are classified alike, [seedBackend] yields the
    same outcome, the same world and the same trace.  The password
    reaches neither the log nor any service. *)
Theorem seedBackend_password_independent (ext : Services)
    (env' : gmap string string) (s : state ext) :
  (forall name, name <> "ADMIN_PASSWORD" ->
     env' !! name = process_env ext !! name) ->
  isCloudEnvironment ext env' = isCloudEnvironment ext (process_env ext) ->
  fst (seedBackend (with_env ext env') (under_env env' s)) =
    fst (seedBackend ext s) /\
  world (snd (seedBackend (with_env ext env') (under_env env' s))) =
    world (snd (seedBackend ext s)) /\
  trace (snd (seedBackend (with_env ext env') (under_env env' s))) =
    trace (snd (seedBackend ext s)).
Proof.
  intros Henv Hcloud.
  unfold seedBackend, seedBackend_try, seedDefaultAIConfigs, under_env.
  unfold_task. cbn [with_env process_env isCloudEnvironment
    AuthService_getInstance DatabaseManager_getInstance initializeApiKey
    getUserTableCount AIConfigService_new findAll create world trace].
  rewrite Hcloud.
  rewrite (Henv "ADMIN_EMAIL"), (Henv "POSTGRES_HOST"),
    (Henv "POSTGRES_PORT"), (Henv "POSTGRES_DB") by discriminate.
  next_answer;
    [ next_answer;
      [ rewrite !ensureFirstAdmin_defaults by discriminate; unfold_task;
        all_paths | ] | ];
    repeat split.
Qed.

Lemma seedBackend_password_independent_witness :
  let sc := nominal {["ADMIN_PASSWORD" := "correct horse"]} true in
  let env' : gmap string string := {["ADMIN_PASSWORD" := "hunter2"]} in
  let s := fresh sc [] in
  trace (snd (seedBackend (with_env (memory_services sc) env')
                (under_env env' s))) =
  trace (snd (seedBackend (memory_services sc) s)).
Proof.
  intros sc env' s.
  apply (seedBackend_password_independent (memory_services sc) env' s).
  - intros name Hname. simpl. unfold env'.
    rewrite !lookup_singleton_ne by congruence. reflexivity.
  - reflexivity.
Defined.
